(** * neural_tangents/utils/kernel.py: the [Kernel] record and [Marginalisation]

    A shallow embedding of [kernel.py]: the [Marginalisation] integer
    enumeration, the fourteen-field [Kernel] named tuple with its constructor
    [Kernel.__new__], the keyword replacement [Kernel._replace] and the
    spatial reversal [Kernel.reverse].

    Python is dynamically typed, so every field holds a [value]; keyword
    arguments are a finite map from field names to values; operations that
    can raise return a [result]. *)

From Stdlib Require Import ZArith QArith_base.
From stdpp Require Import base tactics option list strings gmap fin_maps.

(** ** Results of operations that may raise *)

Inductive exn : Type :=
  | ValueError
  | TypeError
  | NameError.

Inductive result (A : Type) : Type :=
  | Ok (a : A)
  | Raise (e : exn).

Arguments Ok {A} a.
Arguments Raise {A} e.

Definition bind {A B : Type} (r : result A) (f : A → result B) : result B :=
  match r with
  | Ok a => f a
  | Raise e => Raise e
  end.

Notation "x ←! r ; k" := (bind r (λ x, k))
  (at level 100, r at next level, right associativity,
   format "x  ←!  r ;  '/' k").

(** ** [class Marginalisation(enum.IntEnum)] *)

Inductive Marginalisation : Type :=
  | OVER_ALL
  | OVER_PIXELS_AND_POINTS
  | OVER_PIXELS
  | OVER_POINTS
  | NO.

(** [int(m)]: the number written next to each member in the class body. *)
Definition int (m : Marginalisation) : Z :=
  match m with
  | OVER_ALL => 0
  | OVER_PIXELS_AND_POINTS => 1
  | OVER_PIXELS => 2
  | OVER_POINTS => 3
  | NO => 4
  end%Z.

(** The members, in definition order ([list(Marginalisation)]). *)
Definition members : list Marginalisation :=
  [OVER_ALL; OVER_PIXELS_AND_POINTS; OVER_PIXELS; OVER_POINTS; NO].

(** An [IntEnum] inherits its comparisons from [int]: they compare the
    members' numbers. *)
Definition Marginalisation_lt (a b : Marginalisation) : bool :=
  (int a <? int b)%Z.
Definition Marginalisation_eq (a b : Marginalisation) : bool :=
  (int a =? int b)%Z.
Definition Marginalisation_ne (a b : Marginalisation) : bool :=
  negb (int a =? int b)%Z.

(** ** Python values held by the fields *)

(** An [np.ndarray]: its shape and its entries in row-major order.  Only the
    position of the entries matters here, never their arithmetic, so an
    entry is an integer. *)
Record ndarray : Type := mk_ndarray {
  dims : list nat;
  buffer : list Z
}.

#[warnings="-register-all"]
Inductive value : Type :=
  | VNone
  | VBool (b : bool)
  | VInt (z : Z)
  | VFloat (q : Q)
  | VStr (s : string)
  | VEnum (m : Marginalisation)
  | VTuple (l : list value)
  | VArray (a : ndarray)
  | VObj (id : nat).

(** [isinstance(v, Marginalisation)] *)
Definition isinstance_Marginalisation (v : value) : bool :=
  match v with
  | VEnum _ => true
  | _ => false
  end.

(** The statement [if isinstance(v, Marginalisation): v = int(v)]: the
    value of [v] after it. *)
Definition cast (v : value) : value :=
  match v with
  | VEnum m => VInt (int m)
  | _ => v
  end.

(** Truth value of an object, as used by [not].  An array with other than
    one entry has no truth value. *)
Definition truth (v : value) : result bool :=
  match v with
  | VNone => Ok false
  | VBool b => Ok b
  | VInt z => Ok (negb (z =? 0)%Z)
  | VFloat q => Ok (negb (Qnum q =? 0)%Z)
  | VStr s => Ok (negb (String.eqb s ""%string))
  | VEnum m => Ok (negb (int m =? 0)%Z)
  | VTuple l => Ok (match l with [] => false | _ => true end)
  | VArray a =>
      match buffer a with
      | [x] => Ok (negb (x =? 0)%Z)
      | _ => Raise ValueError
      end
  | VObj _ => Ok true
  end.

(** [not v] *)
Definition py_not (v : value) : result value :=
  b ←! truth v; Ok (VBool (negb b)).

(** ** [class Kernel(collections.namedtuple('Kernel', [...]))] *)

Record Kernel : Type := mk_Kernel {
  var1 : value;
  nngp : value;
  var2 : value;
  ntk : value;
  is_gaussian : value;
  is_reversed : value;
  marginal : value;
  cross : value;
  shape1 : value;
  shape2 : value;
  x1_is_x2 : value;
  is_input : value;
  mask1 : value;
  mask2 : value
}.

(** The field names, in the order of the [namedtuple] declaration. *)
Inductive field : Type :=
  | F_var1 | F_nngp | F_var2 | F_ntk | F_is_gaussian | F_is_reversed
  | F_marginal | F_cross | F_shape1 | F_shape2 | F_x1_is_x2 | F_is_input
  | F_mask1 | F_mask2.

Definition fields : list field :=
  [F_var1; F_nngp; F_var2; F_ntk; F_is_gaussian; F_is_reversed;
   F_marginal; F_cross; F_shape1; F_shape2; F_x1_is_x2; F_is_input;
   F_mask1; F_mask2].

Definition field_name (f : field) : string :=
  match f with
  | F_var1 => "var1"
  | F_nngp => "nngp"
  | F_var2 => "var2"
  | F_ntk => "ntk"
  | F_is_gaussian => "is_gaussian"
  | F_is_reversed => "is_reversed"
  | F_marginal => "marginal"
  | F_cross => "cross"
  | F_shape1 => "shape1"
  | F_shape2 => "shape2"
  | F_x1_is_x2 => "x1_is_x2"
  | F_is_input => "is_input"
  | F_mask1 => "mask1"
  | F_mask2 => "mask2"
  end.

Definition _fields : list string := field_name <$> fields.

(** [getattr(k, name)] for a declared field. *)
Definition getattr (f : field) (k : Kernel) : value :=
  match f with
  | F_var1 => var1 k
  | F_nngp => nngp k
  | F_var2 => var2 k
  | F_ntk => ntk k
  | F_is_gaussian => is_gaussian k
  | F_is_reversed => is_reversed k
  | F_marginal => marginal k
  | F_cross => cross k
  | F_shape1 => shape1 k
  | F_shape2 => shape2 k
  | F_x1_is_x2 => x1_is_x2 k
  | F_is_input => is_input k
  | F_mask1 => mask1 k
  | F_mask2 => mask2 k
  end.

(** [Kernel.__new__]: the two casts, then the tuple is built from the
    fourteen arguments in order.  Nothing here can raise. *)
Definition Kernel_new
    (var1 nngp var2 ntk is_gaussian is_reversed marginal cross
     shape1 shape2 x1_is_x2 is_input mask1 mask2 : value) : Kernel :=
  let marginal := cast marginal in
  let cross := cast cross in
  mk_Kernel var1 nngp var2 ntk is_gaussian is_reversed marginal cross
            shape1 shape2 x1_is_x2 is_input mask1 mask2.

(** [namedtuple._replace] of the standard library:
    [result = self._make(map(kwds.pop, field_names, self))], then
    [ValueError] when a keyword is left over. *)
Definition pop (kwds : gmap string value) (f : field) (self : Kernel) : value :=
  default (getattr f self) (kwds !! field_name f).

Definition leftover (kwds : gmap string value) : gmap string value :=
  foldr delete kwds _fields.

Definition namedtuple_replace (self : Kernel) (kwds : gmap string value)
  : result Kernel :=
  let result :=
    mk_Kernel (pop kwds F_var1 self) (pop kwds F_nngp self)
              (pop kwds F_var2 self) (pop kwds F_ntk self)
              (pop kwds F_is_gaussian self) (pop kwds F_is_reversed self)
              (pop kwds F_marginal self) (pop kwds F_cross self)
              (pop kwds F_shape1 self) (pop kwds F_shape2 self)
              (pop kwds F_x1_is_x2 self) (pop kwds F_is_input self)
              (pop kwds F_mask1 self) (pop kwds F_mask2 self) in
  match map_to_list (leftover kwds) with
  | [] => Ok result
  | _ :: _ => Raise ValueError
  end.

(** [Kernel._replace]: the loop [for k in kwargs] applies the cast to the
    value under every key; then the named tuple's own [_replace]. *)
Definition cast_kwargs (kwargs : gmap string value) : gmap string value :=
  cast <$> kwargs.

Definition _replace (self : Kernel) (kwargs : gmap string value)
  : result Kernel :=
  namedtuple_replace self (cast_kwargs kwargs).

(** ** [Kernel.reverse] *)

Section Reverse.

(** [utils.revert_zipped(mat, shape)] lives in [neural_tangents/utils/utils.py];
    [reverse] only calls it. *)
Variable revert_zipped : value → value → result value.

(** The inner [def reverse(mat)]. *)
Definition reverse_mat (self : Kernel) (mat : value) : result value :=
  revert_zipped mat (shape1 self).

(** The keywords of the final [self._replace(...)] call. *)
Definition reverse_kwargs (var1 nngp var2 ntk is_reversed : value)
  : gmap string value :=
  <["var1" := var1]> (<["nngp" := nngp]> (<["var2" := var2]>
    (<["ntk" := ntk]> (<["is_reversed" := is_reversed]> ∅)))).

(** [map(reverse, (var1, nngp, var2, ntk))] is consumed left to right by
    the tuple assignment; [not self.is_reversed] is evaluated next, as an
    argument of the [_replace] call. *)
Definition reverse (self : Kernel) : result Kernel :=
  var1' ←! reverse_mat self (var1 self);
  nngp' ←! reverse_mat self (nngp self);
  var2' ←! reverse_mat self (var2 self);
  ntk' ←! reverse_mat self (ntk self);
  flag ←! py_not (is_reversed self);
  _replace self (reverse_kwargs var1' nngp' var2' ntk' flag).

(** *** Records as objects

    Each record is an object in a store; a reference is its position.
    Every operation that yields a record allocates it at the end of the
    store.  An operation that raises leaves the store as it was. *)

Inductive op : Type :=
  | OpNew (var1 nngp var2 ntk is_gaussian is_reversed marginal cross
           shape1 shape2 x1_is_x2 is_input mask1 mask2 : value)
  | OpReplace (self : nat) (kwargs : gmap string value)
  | OpReverse (self : nat).

Definition alloc (k : Kernel) (store : list Kernel) : nat * list Kernel :=
  (length store, store ++ [k]).

Definition deref (store : list Kernel) (r : nat) : result Kernel :=
  match store !! r with
  | Some k => Ok k
  | None => Raise NameError
  end.

Definition exec (o : op) (store : list Kernel) : result (nat * list Kernel) :=
  match o with
  | OpNew a1 a2 a3 a4 a5 a6 a7 a8 a9 a10 a11 a12 a13 a14 =>
      Ok (alloc (Kernel_new a1 a2 a3 a4 a5 a6 a7 a8 a9 a10 a11 a12 a13 a14)
                store)
  | OpReplace r kwargs =>
      self ←! deref store r;
      k ←! _replace self kwargs;
      Ok (alloc k store)
  | OpReverse r =>
      self ←! deref store r;
      k ←! reverse self;
      Ok (alloc k store)
  end.

Fixpoint run (ops : list op) (store : list Kernel) : list Kernel :=
  match ops with
  | [] => store
  | o :: ops =>
      match exec o store with
      | Ok (_, store') => run ops store'
      | Raise _ => run ops store
      end
  end.

End Reverse.

(** ** The axis-permutation helper [utils.revert_zipped] *)

(** Number of entries of an array of shape [s]. *)
Definition size (s : list nat) : nat := foldr Nat.mul 1 s.

(** Row-major position of a multi-index, and back. *)
Fixpoint ravel_multi_index (s idx : list nat) : nat :=
  match s, idx with
  | _ :: s', i :: idx' => i * size s' + ravel_multi_index s' idx'
  | _, _ => 0
  end.

Fixpoint unravel_index (s : list nat) (pos : nat) : list nat :=
  match s with
  | [] => []
  | _ :: s' => pos / size s' :: unravel_index s' (pos mod size s')
  end.

(** Modelled from the spec: the order of the axis pairs is reversed, the
    order inside each pair is kept: [[h1; h2; w1; w2; d1; d2]] becomes [[d1; d2; w1; w2; h1; h2]]. *)
Fixpoint reverse_pairs {A : Type} (l : list A) : list A :=
  match l with
  | a :: b :: t => reverse_pairs t ++ [a; b]
  | _ => l
  end.

(** Modelled from the spec: batch axes are preserved; the first [nbatch]
    axes stay in place, the pairs after them are reversed. *)
Definition reverse_axis_pairs {A : Type} (nbatch : nat) (l : list A) : list A :=
  take nbatch l ++ reverse_pairs (drop nbatch l).

(** Modelled from the spec: the axis-order-reversing permutation applied to
    an array.  The entry of the result at a multi-index is the entry of [a]
    at the permuted multi-index. *)
Definition transpose_pairs (nbatch : nat) (a : ndarray) : ndarray :=
  let s' := reverse_axis_pairs nbatch (dims a) in
  mk_ndarray s'
    (map (λ pos,
            nth (ravel_multi_index (dims a)
                   (reverse_axis_pairs nbatch (unravel_index s' pos)))
                (buffer a) 0%Z)
         (seq 0 (size s'))).

(** Modelled from the spec: the spatial-dimension count of a reference
    shape.  A shape lists the batch dimension, the spatial dimensions and the
    channel dimension, as in the docstring's NHWC example [(5, 32, 32, 3)]. *)
Definition spatial_ndim (shape : list value) : nat := length shape - 2.

(** Modelled from the spec: [utils.revert_zipped] is defined in
    [neural_tangents/utils/utils.py], which is not part of the sources at
    hand.  The spec describes it as: given an array and a reference shape
    describing the spatial-dimension count, return the array with the
    spatial axis pairs in reverse relative order, batch axes and the order
    inside each pair preserved; malformed inputs surface as failures inside
    it.  The trailing [2 * spatial_ndim shape] axes of the array are the
    spatial pairs, the axes before them are batch axes. *)
Definition revert_zipped (mat shape : value) : result value :=
  match mat, shape with
  | VArray a, VTuple s =>
      let n := spatial_ndim s in
      if 2 * n <=? length (dims a)
      then Ok (VArray (transpose_pairs (length (dims a) - 2 * n) a))
      else Raise ValueError
  | _, _ => Raise TypeError
  end.

(** An array value is well formed when it has one entry per position. *)
Definition well_formed_array (a : ndarray) : Prop :=
  length (buffer a) = size (dims a).

Definition well_formed_arrayb (a : ndarray) : bool :=
  length (buffer a) =? size (dims a).

(** ** Predicates used in the statements *)

(** The ordinal a caller means by a [marginal] or [cross] argument: the
    number of an enumeration member, or an integer in the enumeration's
    range. *)
Definition intended_ordinal (v : value) : option Z :=
  match v with
  | VEnum m => Some (int m)
  | VInt z => if ((0 <=? z) && (z <=? 4))%Z then Some z else None
  | _ => None
  end.

(** Neither classification field holds an enumeration member. *)
Definition plain_ordinals (k : Kernel) : Prop :=
  isinstance_Marginalisation (marginal k) = false ∧
  isinstance_Marginalisation (cross k) = false.

(** Every keyword is the name of a field. *)
Definition names_fields (kwargs : gmap string value) : Prop :=
  map_Forall (λ s _, s ∈ _fields) kwargs.

(** The record [_replace] builds on success: an overridden field holds the
    cast keyword value, any other field the receiver's. *)
Definition overridden (self : Kernel) (kwargs : gmap string value) (f : field)
  : value :=
  match kwargs !! field_name f with
  | Some v => cast v
  | None => getattr f self
  end.

(** The array has its entries in place and at least the axes of [n] spatial
    pairs. *)
Definition paired_spatial_axes (n : nat) (a : ndarray) : bool :=
  well_formed_arrayb a && (2 * n <=? length (dims a)).

(** A record with a pairable spatial layout: [marginal] at least
    [OVER_POINTS], [cross] at least [NO], the flag a boolean, and the four
    covariance arrays laid out with the spatial axis pairs that [shape1]
    calls for. *)
Definition pairable_layout (k : Kernel) : bool :=
  match shape1 k, marginal k, cross k, is_reversed k with
  | VTuple s, VInt zm, VInt zc, VBool _ =>
      (int OVER_POINTS <=? zm)%Z && (int NO <=? zc)%Z &&
      match var1 k, nngp k, var2 k, ntk k with
      | VArray a1, VArray a2, VArray a3, VArray a4 =>
          forallb (paired_spatial_axes (spatial_ndim s)) [a1; a2; a3; a4]
      | _, _, _, _ => false
      end
  | _, _, _, _ => false
  end.

(** ** A sample record

    Two inputs of height 2 and width 3: [var1]/[var2] have axes
    [(batch, H, H, W, W)] and [nngp]/[ntk] have axes
    [(batch, batch, H, H, W, W)]. *)
Definition sample_var : ndarray :=
  mk_ndarray [2; 2; 2; 3; 3] (Z.of_nat <$> seq 0 72).

Definition sample_cross : ndarray :=
  mk_ndarray [2; 2; 2; 2; 3; 3] (Z.of_nat <$> seq 0 144).

Definition sample_shape : value := VTuple [VInt 2; VInt 2; VInt 3; VInt 1].

Definition sample_kernel : Kernel :=
  Kernel_new (VArray sample_var) (VArray sample_cross)
             (VArray sample_var) (VArray sample_cross)
             (VBool true) (VBool false) (VEnum OVER_POINTS) (VEnum NO)
             sample_shape sample_shape (VBool true) (VBool false) VNone VNone.

(** A fully connected record: no spatial dimensions. *)
Definition dense_var : ndarray := mk_ndarray [3] [5; 7; 11]%Z.

Definition dense_cross : ndarray :=
  mk_ndarray [3; 3] [5; 1; 2; 1; 7; 3; 2; 3; 11]%Z.

Definition dense_kernel : Kernel :=
  Kernel_new (VArray dense_var) (VArray dense_cross)
             (VArray dense_var) (VArray dense_cross)
             (VBool true) (VBool false) (VEnum OVER_ALL) (VEnum OVER_ALL)
             (VTuple [VInt 3; VInt 8]) (VTuple [VInt 3; VInt 8])
             (VBool true) (VBool true) VNone VNone.

(** ** The remaining comparisons of the enumeration

    The class docstring: [<] and [==] work as set inclusion and equality,
    and [>], [<=], [>=] as would be expected; all are [int]'s. *)
Definition Marginalisation_le (a b : Marginalisation) : bool :=
  (int a <=? int b)%Z.
Definition Marginalisation_gt (a b : Marginalisation) : bool :=
  (int a >? int b)%Z.
Definition Marginalisation_ge (a b : Marginalisation) : bool :=
  (int a >=? int b)%Z.

(** The fields [reverse] reads or overrides. *)
Definition reverse_touches : list string :=
  ["var1"; "nngp"; "var2"; "ntk"; "is_reversed"; "shape1"].

(** The helper takes [mat] to a value that is no enumeration member and
    takes that value back to [mat], for the reference shape [shape]. *)
Definition undone_by (rz : value → value → result value) (shape mat : value)
  : Prop :=
  isinstance_Marginalisation mat = false ∧
  ∃ r, rz mat shape = Ok r ∧ isinstance_Marginalisation r = false ∧
       rz r shape = Ok mat.

(** * Properties *)

(** ** The enumeration *)

Lemma int_inj a b : int a = int b → a = b.
Proof. by destruct a, b. Qed.

Lemma members_complete m : m ∈ members.
Proof. destruct m; unfold members; set_solver. Qed.

Lemma members_NoDup : NoDup members.
Proof.
  unfold members.
  repeat (apply NoDup_cons; split;
          [rewrite ?not_elem_of_cons; repeat split;
           discriminate || apply not_elem_of_nil|]).
  apply NoDup_nil_2.
Qed.

(** ** Casting *)

Lemma cast_plain v : isinstance_Marginalisation (cast v) = false.
Proof. by destruct v. Qed.

Lemma cast_not_instance v : isinstance_Marginalisation v = false → cast v = v.
Proof. by destruct v. Qed.

Lemma cast_intended v z : intended_ordinal v = Some z → cast v = VInt z.
Proof.
  destruct v; simpl; try discriminate.
  - case_match; congruence.
  - congruence.
Qed.

Lemma cast_kwargs_lookup kwargs s :
  cast_kwargs kwargs !! s = cast <$> kwargs !! s.
Proof.
  unfold cast_kwargs. apply lookup_fmap.
Qed.

(** ** Construction *)

Lemma Kernel_new_fields a1 a2 a3 a4 a5 a6 a7 a8 a9 a10 a11 a12 a13 a14 :
  Kernel_new a1 a2 a3 a4 a5 a6 a7 a8 a9 a10 a11 a12 a13 a14 =
  mk_Kernel a1 a2 a3 a4 a5 a6 (cast a7) (cast a8) a9 a10 a11 a12 a13 a14.
Proof. reflexivity. Qed.

(** ** Replacement *)

Lemma field_name_in f : field_name f ∈ _fields.
Proof. unfold _fields. apply list_elem_of_fmap_2. destruct f; set_solver. Qed.

Lemma lookup_foldr_delete (m : gmap string value) (l : list string) s :
  foldr delete m l !! s = if decide (s ∈ l) then None else m !! s.
Proof.
  induction l as [|x l IH]; cbn [foldr].
  - destruct (decide (s ∈ [])) as [H|H]; [by apply elem_of_nil in H|done].
  - destruct (decide (x = s)) as [->|Hne].
    + rewrite lookup_delete_eq.
      destruct (decide (s ∈ s :: l)) as [H|H]; [done|].
      exfalso. apply H. by left.
    + rewrite lookup_delete_ne by done. rewrite IH.
      destruct (decide (s ∈ l)) as [Hl|Hl], (decide (s ∈ x :: l)) as [Hx|Hx];
        try done.
      * exfalso. apply Hx. by right.
      * apply elem_of_cons in Hx. destruct Hx; congruence.
Qed.

Lemma leftover_empty kwds : names_fields kwds → leftover kwds = ∅.
Proof.
  intros Hv. apply map_eq. intros s. unfold leftover.
  rewrite lookup_foldr_delete, lookup_empty.
  case_decide as Hs; [done|].
  destruct (kwds !! s) as [v|] eqn:E; [|done].
  exfalso. apply Hs. exact (Hv s v E).
Qed.

Lemma leftover_nonempty kwds s v :
  kwds !! s = Some v → s ∉ _fields → leftover kwds ≠ ∅.
Proof.
  intros E Hs Hempty.
  assert (leftover kwds !! s = Some v) as H.
  { unfold leftover. rewrite lookup_foldr_delete. by rewrite decide_False. }
  rewrite Hempty, lookup_empty in H. discriminate.
Qed.

Lemma names_fields_cast kwargs : names_fields kwargs → names_fields (cast_kwargs kwargs).
Proof.
  intros Hv s v. rewrite cast_kwargs_lookup.
  destruct (kwargs !! s) as [w|] eqn:E; simpl; [|discriminate].
  intros _. exact (Hv s w E).
Qed.

Lemma replace_Ok self kwargs :
  names_fields kwargs →
  _replace self kwargs =
  Ok (mk_Kernel
        (overridden self kwargs F_var1) (overridden self kwargs F_nngp)
        (overridden self kwargs F_var2) (overridden self kwargs F_ntk)
        (overridden self kwargs F_is_gaussian)
        (overridden self kwargs F_is_reversed)
        (overridden self kwargs F_marginal) (overridden self kwargs F_cross)
        (overridden self kwargs F_shape1) (overridden self kwargs F_shape2)
        (overridden self kwargs F_x1_is_x2) (overridden self kwargs F_is_input)
        (overridden self kwargs F_mask1) (overridden self kwargs F_mask2)).
Proof.
  intros Hv. unfold _replace, namedtuple_replace.
  rewrite (leftover_empty _ (names_fields_cast _ Hv)), map_to_list_empty.
  unfold pop, overridden. rewrite !cast_kwargs_lookup.
  f_equal. f_equal; by destruct (kwargs !! _).
Qed.

Lemma replace_getattr self kwargs :
  names_fields kwargs →
  ∃ k, _replace self kwargs = Ok k ∧
       ∀ f, getattr f k = overridden self kwargs f.
Proof.
  intros Hv. eexists. split; [by apply replace_Ok|]. by intros [].
Qed.

Lemma replace_unexpected self kwargs s v :
  kwargs !! s = Some v → s ∉ _fields → _replace self kwargs = Raise ValueError.
Proof.
  intros E Hs. unfold _replace, namedtuple_replace.
  assert (leftover (cast_kwargs kwargs) ≠ ∅) as Hne.
  { eapply (leftover_nonempty _ s); [|done].
    rewrite cast_kwargs_lookup, E. done. }
  destruct (map_to_list (leftover (cast_kwargs kwargs))) eqn:El; [|done].
  apply map_to_list_empty_iff in El. done.
Qed.

Lemma replace_plain self kwargs k :
  plain_ordinals self → _replace self kwargs = Ok k → plain_ordinals k.
Proof.
  intros [Hm Hc] H. unfold _replace, namedtuple_replace in H.
  destruct (map_to_list _); [|discriminate]. injection H as <-.
  unfold plain_ordinals, pop; simpl. rewrite !cast_kwargs_lookup.
  split; destruct (kwargs !! _); simpl; auto using cast_plain.
Qed.

(** ** Reversal, for any helper *)

Section ReverseFacts.

Variable rz : value → value → result value.

Lemma bind_Ok {A B : Type} (r : result A) (f : A → result B) b :
  bind r f = Ok b → ∃ a, r = Ok a ∧ f a = Ok b.
Proof. destruct r as [a|e]; simpl; [eauto|discriminate]. Qed.

Lemma reverse_kwargs_names r1 r2 r3 r4 flag :
  names_fields (reverse_kwargs r1 r2 r3 r4 flag).
Proof.
  unfold reverse_kwargs, names_fields.
  repeat (apply map_Forall_insert_2;
          [first [exact (field_name_in F_var1) | exact (field_name_in F_nngp)
                 | exact (field_name_in F_var2) | exact (field_name_in F_ntk)
                 | exact (field_name_in F_is_reversed)]|]).
  apply map_Forall_empty.
Qed.

Lemma reverse_Ok self r1 r2 r3 r4 b :
  rz (var1 self) (shape1 self) = Ok r1 →
  rz (nngp self) (shape1 self) = Ok r2 →
  rz (var2 self) (shape1 self) = Ok r3 →
  rz (ntk self) (shape1 self) = Ok r4 →
  truth (is_reversed self) = Ok b →
  reverse rz self =
  Ok (mk_Kernel (cast r1) (cast r2) (cast r3) (cast r4)
        (is_gaussian self) (VBool (negb b)) (marginal self) (cross self)
        (shape1 self) (shape2 self) (x1_is_x2 self) (is_input self)
        (mask1 self) (mask2 self)).
Proof.
  intros H1 H2 H3 H4 Hb. unfold reverse, reverse_mat, py_not.
  rewrite H1, H2, H3, H4, Hb. cbn [bind].
  rewrite replace_Ok by apply reverse_kwargs_names.
  unfold overridden, reverse_kwargs. cbn [field_name getattr].
  by simplify_map_eq.
Qed.

Lemma reverse_inv self k :
  reverse rz self = Ok k →
  ∃ r1 r2 r3 r4 b,
    rz (var1 self) (shape1 self) = Ok r1 ∧
    rz (nngp self) (shape1 self) = Ok r2 ∧
    rz (var2 self) (shape1 self) = Ok r3 ∧
    rz (ntk self) (shape1 self) = Ok r4 ∧
    truth (is_reversed self) = Ok b.
Proof.
  unfold reverse, reverse_mat, py_not. intros H.
  apply bind_Ok in H as (r1 & H1 & H).
  apply bind_Ok in H as (r2 & H2 & H).
  apply bind_Ok in H as (r3 & H3 & H).
  apply bind_Ok in H as (r4 & H4 & H).
  apply bind_Ok in H as (flag & Hf & H).
  apply bind_Ok in Hf as (b & Hb & _).
  by exists r1, r2, r3, r4, b.
Qed.

Lemma reverse_plain self k :
  plain_ordinals self → reverse rz self = Ok k → plain_ordinals k.
Proof.
  intros Hp H. destruct (reverse_inv _ _ H) as (r1 & r2 & r3 & r4 & b & H1 & H2 & H3 & H4 & Hb).
  rewrite (reverse_Ok _ _ _ _ _ _ H1 H2 H3 H4 Hb) in H. by injection H as <-.
Qed.

(** ** The object store *)

Lemma exec_inv o store r store' :
  exec rz o store = Ok (r, store') →
  ∃ k, r = length store ∧ store' = store ++ [k] ∧
       match o with
       | OpNew a1 a2 a3 a4 a5 a6 a7 a8 a9 a10 a11 a12 a13 a14 =>
           k = Kernel_new a1 a2 a3 a4 a5 a6 a7 a8 a9 a10 a11 a12 a13 a14
       | OpReplace s kwargs =>
           ∃ self, store !! s = Some self ∧ _replace self kwargs = Ok k
       | OpReverse s =>
           ∃ self, store !! s = Some self ∧ reverse rz self = Ok k
       end.
Proof.
  destruct o as [a1 a2 a3 a4 a5 a6 a7 a8 a9 a10 a11 a12 a13 a14|s kwargs|s];
    unfold exec, alloc, deref.
  - intros [= <- <-]. by eexists.
  - destruct (store !! s) as [self|]; [|discriminate]. cbn [bind].
    destruct (_replace self kwargs) as [k|] eqn:E; [|discriminate].
    intros [= <- <-]. exists k. eauto.
  - destruct (store !! s) as [self|]; [|discriminate]. cbn [bind].
    destruct (reverse rz self) as [k|] eqn:E; [|discriminate].
    intros [= <- <-]. exists k. eauto.
Qed.

Lemma exec_preserves o store r store' s k :
  exec rz o store = Ok (r, store') →
  store !! s = Some k → store' !! s = Some k ∧ s ≠ r.
Proof.
  intros H Hs. apply exec_inv in H as (k' & -> & -> & _).
  pose proof (lookup_lt_Some _ _ _ Hs). split; [|lia].
  by apply lookup_app_l_Some.
Qed.

Lemma exec_plain o store r store' :
  exec rz o store = Ok (r, store') →
  Forall plain_ordinals store → Forall plain_ordinals store'.
Proof.
  intros H Hall. apply exec_inv in H as (k & -> & -> & Hk).
  apply Forall_app. split; [done|]. apply Forall_singleton.
  destruct o as [a1 a2 a3 a4 a5 a6 a7 a8 a9 a10 a11 a12 a13 a14|s kwargs|s].
  - subst k. rewrite Kernel_new_fields. split; apply cast_plain.
  - destruct Hk as (self & Hs & Hk).
    eapply replace_plain; [|done].
    eapply Forall_lookup_1; eauto.
  - destruct Hk as (self & Hs & Hk).
    eapply reverse_plain; [|done].
    eapply Forall_lookup_1; eauto.
Qed.

Lemma run_preserves ops store s k :
  store !! s = Some k → run rz ops store !! s = Some k.
Proof.
  revert store. induction ops as [|o ops IH]; intros store Hs; [done|].
  cbn [run]. destruct (exec rz o store) as [[r store']|e] eqn:E.
  - apply IH. by eapply exec_preserves.
  - by apply IH.
Qed.

Lemma run_plain ops store :
  Forall plain_ordinals store → Forall plain_ordinals (run rz ops store).
Proof.
  revert store. induction ops as [|o ops IH]; intros store Hall; [done|].
  cbn [run]. destruct (exec rz o store) as [[r store']|e] eqn:E.
  - apply IH. by eapply exec_plain.
  - by apply IH.
Qed.

End ReverseFacts.

(** ** Row-major positions *)

Lemma ravel_in_range s idx :
  Forall2 Nat.lt idx s → ravel_multi_index s idx < size s.
Proof.
  induction 1 as [|i d idx s Hi _ IH]; simpl; [lia|].
  fold (size s). unfold Nat.lt in Hi. nia.
Qed.

Lemma unravel_in_range s pos :
  pos < size s → Forall2 Nat.lt (unravel_index s pos) s.
Proof.
  revert pos. induction s as [|d s IH]; intros pos Hpos; simpl; [constructor|].
  simpl in Hpos. fold (size s) in Hpos.
  assert (size s ≠ 0) as Hnz by (intros E; rewrite E in Hpos; lia).
  constructor.
  - apply Nat.Div0.div_lt_upper_bound. lia.
  - apply IH. by apply Nat.mod_upper_bound.
Qed.

Lemma unravel_length s pos : length (unravel_index s pos) = length s.
Proof. revert pos. induction s as [|d s IH]; intros pos; simpl; [done|]. by rewrite IH. Qed.

Lemma ravel_unravel s pos :
  pos < size s → ravel_multi_index s (unravel_index s pos) = pos.
Proof.
  revert pos. induction s as [|d s IH]; intros pos Hpos; simpl in *; [lia|].
  fold (size s) in *.
  assert (size s ≠ 0) as Hnz by (intros E; rewrite E in Hpos; lia).
  rewrite IH by (by apply Nat.mod_upper_bound).
  rewrite (Nat.div_mod_eq pos (size s)) at 3. lia.
Qed.

Lemma unravel_ravel s idx :
  Forall2 Nat.lt idx s → unravel_index s (ravel_multi_index s idx) = idx.
Proof.
  induction 1 as [|i d idx s Hi Hrest IH]; simpl; [done|].
  fold (size s). pose proof (ravel_in_range _ _ Hrest) as Hlt.
  assert (size s ≠ 0) as Hnz by lia.
  f_equal.
  - rewrite Nat.div_add_l by done. rewrite Nat.div_small by done. lia.
  - rewrite Nat.add_comm, Nat.Div0.mod_add, Nat.mod_small by done. exact IH.
Qed.

Lemma nth_tabulate {A : Type} (f : nat → A) n i d :
  i < n → nth i (map f (seq 0 n)) d = f i.
Proof.
  intros Hi. rewrite nth_lookup. change (map f (seq 0 n)) with (f <$> seq 0 n).
  rewrite list_lookup_fmap, lookup_seq_lt by done. done.
Qed.

Lemma tabulate_nth {A : Type} (l : list A) n d :
  length l = n → map (λ i, nth i l d) (seq 0 n) = l.
Proof.
  intros Hn. apply (nth_ext _ _ d d).
  - by rewrite length_map, length_seq.
  - intros i Hi. rewrite length_map, length_seq in Hi. by rewrite nth_tabulate.
Qed.

(** ** Reversing the order of pairs *)

Lemma list_pair_ind {A : Type} (P : list A → Prop) :
  P [] → (∀ a, P [a]) → (∀ a b t, P t → P (a :: b :: t)) → ∀ l, P l.
Proof.
  intros Hnil Hone Hstep l.
  cut (P l ∧ ∀ a, P (a :: l)); [tauto|].
  induction l as [|x l [IH1 IH2]]; split; auto.
Qed.

Lemma reverse_pairs_length {A : Type} (l : list A) :
  length (reverse_pairs l) = length l.
Proof.
  induction l as [| |a b t IH] using list_pair_ind; simpl; [done..|].
  rewrite length_app, IH. simpl. lia.
Qed.

Lemma reverse_pairs_snoc {A : Type} (l : list A) a b :
  Nat.even (length l) = true →
  reverse_pairs (l ++ [a; b]) = a :: b :: reverse_pairs l.
Proof.
  induction l as [|x|x y t IH] using list_pair_ind; intros Hev;
    [done|discriminate|].
  simpl in *. by rewrite IH.
Qed.

Lemma reverse_pairs_involutive {A : Type} (l : list A) :
  Nat.even (length l) = true → reverse_pairs (reverse_pairs l) = l.
Proof.
  induction l as [|x|x y t IH] using list_pair_ind; intros Hev;
    [done|discriminate|].
  simpl in *. rewrite reverse_pairs_snoc by (by rewrite reverse_pairs_length).
  by rewrite IH.
Qed.

Lemma reverse_pairs_Forall2 {A B : Type} (R : A → B → Prop) l k :
  Forall2 R l k → Forall2 R (reverse_pairs l) (reverse_pairs k).
Proof.
  revert k. induction l as [|x|x y t IH] using list_pair_ind; intros k H.
  - by inversion H.
  - inversion H as [|? ? ? ? ? H']; subst. by inversion H'; subst.
  - inversion H as [|? x' ? k' Hx H']; subst.
    inversion H' as [|? y' ? k'' Hy H'']; subst. simpl.
    apply Forall2_app; [by apply IH|]. by repeat constructor.
Qed.

Section AxisPairs.

Context {A : Type}.
Variable nbatch : nat.

Lemma reverse_axis_pairs_length (l : list A) :
  length (reverse_axis_pairs nbatch l) = length l.
Proof.
  unfold reverse_axis_pairs.
  rewrite length_app, reverse_pairs_length, length_take, length_drop. lia.
Qed.

Lemma reverse_axis_pairs_involutive (l : list A) :
  nbatch ≤ length l → Nat.even (length l - nbatch) = true →
  reverse_axis_pairs nbatch (reverse_axis_pairs nbatch l) = l.
Proof.
  intros Hle Hev. unfold reverse_axis_pairs.
  assert (length (take nbatch l) = nbatch) as Hlen
    by (rewrite length_take; lia).
  rewrite take_app_length', drop_app_length' by done.
  rewrite reverse_pairs_involutive by (by rewrite length_drop).
  apply take_drop.
Qed.

Lemma reverse_axis_pairs_all (l : list A) :
  length l ≤ nbatch → reverse_axis_pairs nbatch l = l.
Proof.
  intros Hle. unfold reverse_axis_pairs.
  rewrite take_ge, drop_ge by done. simpl. apply app_nil_r.
Qed.

End AxisPairs.

Lemma reverse_axis_pairs_Forall2 {A B : Type} (R : A → B → Prop) nbatch l k :
  Forall2 R l k →
  Forall2 R (reverse_axis_pairs nbatch l) (reverse_axis_pairs nbatch k).
Proof.
  intros H. unfold reverse_axis_pairs. apply Forall2_app.
  - by apply Forall2_take.
  - apply reverse_pairs_Forall2. by apply Forall2_drop.
Qed.

(** ** Transposition *)

Lemma transpose_pairs_well_formed nbatch a :
  well_formed_array (transpose_pairs nbatch a).
Proof.
  unfold well_formed_array, transpose_pairs. simpl.
  by rewrite length_map, length_seq.
Qed.

Lemma transpose_pairs_ndim nbatch a :
  length (dims (transpose_pairs nbatch a)) = length (dims a).
Proof. apply reverse_axis_pairs_length. Qed.

Lemma transpose_pairs_involutive nbatch a :
  well_formed_array a →
  nbatch ≤ length (dims a) →
  Nat.even (length (dims a) - nbatch) = true →
  transpose_pairs nbatch (transpose_pairs nbatch a) = a.
Proof.
  destruct a as [s buf]. unfold well_formed_array. simpl. intros Hwf Hle Hev.
  unfold transpose_pairs. simpl.
  rewrite (reverse_axis_pairs_involutive nbatch s) by done.
  f_equal. etrans; [|exact (tabulate_nth buf (size s) 0%Z Hwf)].
  apply map_ext_in. intros pos Hpos.
  apply in_seq in Hpos. destruct Hpos as [_ Hpos]. simpl in Hpos.
  pose proof (unravel_in_range s pos Hpos) as Hidx.
  pose proof (reverse_axis_pairs_Forall2 Nat.lt nbatch _ _ Hidx) as Hidx'.
  rewrite nth_tabulate by (by apply ravel_in_range).
  rewrite unravel_ravel by done.
  rewrite reverse_axis_pairs_involutive
    by (by rewrite unravel_length).
  by rewrite ravel_unravel.
Qed.

Lemma transpose_pairs_no_pairs nbatch a :
  well_formed_array a → length (dims a) ≤ nbatch → transpose_pairs nbatch a = a.
Proof.
  destruct a as [s buf]. unfold well_formed_array. simpl. intros Hwf Hle.
  unfold transpose_pairs. simpl.
  rewrite (reverse_axis_pairs_all nbatch s) by done.
  f_equal. etrans; [|exact (tabulate_nth buf (size s) 0%Z Hwf)].
  apply map_ext_in. intros pos Hpos.
  apply in_seq in Hpos. destruct Hpos as [_ Hpos]. simpl in Hpos.
  rewrite reverse_axis_pairs_all by (by rewrite unravel_length).
  by rewrite ravel_unravel.
Qed.

(** ** The helper on arrays *)

Lemma well_formed_arrayb_spec a :
  well_formed_arrayb a = true ↔ well_formed_array a.
Proof. unfold well_formed_arrayb, well_formed_array. apply Nat.eqb_eq. Qed.

Lemma paired_spatial_axes_spec n a :
  paired_spatial_axes n a = true →
  well_formed_array a ∧ 2 * n ≤ length (dims a).
Proof.
  unfold paired_spatial_axes. intros [Hwf Hn]%andb_prop. split.
  - by apply well_formed_arrayb_spec.
  - by apply Nat.leb_le.
Qed.

Lemma revert_zipped_array a s :
  2 * spatial_ndim s ≤ length (dims a) →
  revert_zipped (VArray a) (VTuple s) =
  Ok (VArray (transpose_pairs (length (dims a) - 2 * spatial_ndim s) a)).
Proof.
  intros Hn. unfold revert_zipped. cbv zeta.
  by rewrite (proj2 (Nat.leb_le _ _) Hn).
Qed.

Lemma revert_zipped_twice a s :
  well_formed_array a →
  2 * spatial_ndim s ≤ length (dims a) →
  ∃ a', revert_zipped (VArray a) (VTuple s) = Ok (VArray a') ∧
        revert_zipped (VArray a') (VTuple s) = Ok (VArray a).
Proof.
  intros Hwf Hn. eexists. split; [by apply revert_zipped_array|].
  rewrite revert_zipped_array by (by rewrite transpose_pairs_ndim).
  rewrite transpose_pairs_ndim. do 2 f_equal.
  apply transpose_pairs_involutive; [done|lia|].
  replace (length (dims a) - (length (dims a) - 2 * spatial_ndim s))
    with (2 * spatial_ndim s) by lia.
  rewrite Nat.even_mul. done.
Qed.

Lemma revert_zipped_no_spatial a s :
  well_formed_array a → spatial_ndim s = 0 →
  revert_zipped (VArray a) (VTuple s) = Ok (VArray a).
Proof.
  intros Hwf Hs. rewrite revert_zipped_array by lia.
  do 2 f_equal. apply transpose_pairs_no_pairs; [done|lia].
Qed.

(** * The claims *)

(** C5. [Marginalisation] has exactly five distinct members, numbered
    [OVER_ALL = 0], [OVER_PIXELS_AND_POINTS = 1], [OVER_PIXELS = 2],
    [OVER_POINTS = 3], [NO = 4]; and whenever the number of [a] is less than
    the number of [b], both [a < b] and [a != b] hold. *)
Theorem Marginalisation_order (a b : Marginalisation) :
  (int OVER_ALL = 0 ∧ int OVER_PIXELS_AND_POINTS = 1 ∧ int OVER_PIXELS = 2 ∧
   int OVER_POINTS = 3 ∧ int NO = 4)%Z ∧
  length members = 5 ∧ NoDup members ∧ (∀ m, m ∈ members) ∧
  (∀ m m', int m = int m' → m = m') ∧
  ((int a < int b)%Z →
   Marginalisation_lt a b = true ∧ Marginalisation_ne a b = true ∧ a ≠ b).
Proof.
  split; [done|]. split; [done|]. split; [apply members_NoDup|].
  split; [apply members_complete|]. split; [apply int_inj|].
  intros Hlt. unfold Marginalisation_lt, Marginalisation_ne. repeat split.
  - by apply Z.ltb_lt.
  - apply negb_true_iff, Z.eqb_neq. lia.
  - intros ->. lia.
Qed.

Lemma Marginalisation_order_witness :
  Marginalisation_lt OVER_PIXELS NO = true ∧
  Marginalisation_ne OVER_PIXELS NO = true ∧
  OVER_PIXELS ≠ NO.
Proof.
  apply (Marginalisation_order OVER_PIXELS NO). simpl. lia.
Defined.

(** C6. Construction validates nothing: for all fourteen arguments it
    yields a record whose fields are the arguments, [marginal] and [cross]
    after the cast, and it never raises. *)
Theorem construction_total (rz : value → value → result value)
    (a1 a2 a3 a4 a5 a6 a7 a8 a9 a10 a11 a12 a13 a14 : value)
    (store : list Kernel) :
  Kernel_new a1 a2 a3 a4 a5 a6 a7 a8 a9 a10 a11 a12 a13 a14 =
    mk_Kernel a1 a2 a3 a4 a5 a6 (cast a7) (cast a8) a9 a10 a11 a12 a13 a14 ∧
  exec rz (OpNew a1 a2 a3 a4 a5 a6 a7 a8 a9 a10 a11 a12 a13 a14) store =
    Ok (length store,
        store ++ [mk_Kernel a1 a2 a3 a4 a5 a6 (cast a7) (cast a8)
                            a9 a10 a11 a12 a13 a14]).
Proof.
  split; [apply Kernel_new_fields|].
  unfold exec, alloc. by rewrite Kernel_new_fields.
Qed.

(** Mismatched [nngp]/[ntk] shapes, a mask that fits no shape and
    [is_reversed = True] below [OVER_POINTS] are all accepted. *)
Example construction_accepts_inconsistent :
  Kernel_new (VArray dense_var) (VArray dense_cross) VNone (VArray sample_var)
             (VStr "yes") (VBool true) (VEnum OVER_ALL) (VInt 0)
             (VTuple []) VNone VNone VNone (VArray sample_cross) (VInt 7) =
  mk_Kernel (VArray dense_var) (VArray dense_cross) VNone (VArray sample_var)
            (VStr "yes") (VBool true) (VInt 0) (VInt 0)
            (VTuple []) VNone VNone VNone (VArray sample_cross) (VInt 7).
Proof. reflexivity. Qed.

(** C4. For keywords that name fields, [_replace] returns a new record
    equal to the receiver in every field not named, holding the cast
    keyword value in every field named; the receiver stays in the store as
    it was, the result is a different object. *)
Theorem replace_frame (rz : value → value → result value)
    (self : Kernel) (kwargs : gmap string value) :
  names_fields kwargs →
  ∃ k, _replace self kwargs = Ok k ∧
       (∀ f, kwargs !! field_name f = None → getattr f k = getattr f self) ∧
       (∀ f v, kwargs !! field_name f = Some v → getattr f k = cast v) ∧
       (∀ store r, store !! r = Some self →
          ∃ r' store',
            exec rz (OpReplace r kwargs) store = Ok (r', store') ∧
            r' ≠ r ∧ store' !! r = Some self ∧ store' !! r' = Some k).
Proof.
  intros Hv. destruct (replace_getattr self kwargs Hv) as (k & Hk & Hget).
  exists k. split; [done|]. split; [|split].
  - intros f Hf. rewrite Hget. unfold overridden. by rewrite Hf.
  - intros f v Hf. rewrite Hget. unfold overridden. by rewrite Hf.
  - intros store r Hr. exists (length store), (store ++ [k]).
    pose proof (lookup_lt_Some _ _ _ Hr).
    unfold exec, deref, alloc. rewrite Hr. cbn [bind]. rewrite Hk. cbn [bind].
    split; [done|]. split; [lia|]. split.
    + by apply lookup_app_l_Some.
    + by rewrite lookup_app_r, Nat.sub_diag by lia.
Qed.

Lemma replace_frame_witness :
  ∃ k, _replace sample_kernel {["cross" := VEnum OVER_PIXELS]} = Ok k ∧
       getattr F_cross k = VInt 2 ∧
       getattr F_marginal k = VInt 3 ∧
       getattr F_nngp k = VArray sample_cross.
Proof.
  destruct (replace_frame revert_zipped sample_kernel
              {["cross" := VEnum OVER_PIXELS]})
    as (k & Hk & Hkeep & Hset & _).
  - apply map_Forall_singleton. exact (field_name_in F_cross).
  - exists k. split; [exact Hk|]. split; [|split].
    + apply (Hset F_cross (VEnum OVER_PIXELS)). reflexivity.
    + rewrite (Hkeep F_marginal); reflexivity.
    + rewrite (Hkeep F_nngp); reflexivity.
Defined.

(** C9. [_replace] casts by value, not by key: a [Marginalisation] given for
    any field is stored as its number; [__new__] casts its [marginal] and
    [cross] arguments only and stores every other argument as given. *)
Theorem replace_casts_by_value
    (self : Kernel) (kwargs : gmap string value) (f : field)
    (m : Marginalisation) :
  names_fields kwargs →
  kwargs !! field_name f = Some (VEnum m) →
  (∃ k, _replace self kwargs = Ok k ∧ getattr f k = VInt (int m)) ∧
  (∀ a1 a2 a3 a4 a5 a6 a7 a8 a9 a10 a11 a12 a13 a14 g,
     getattr g (Kernel_new a1 a2 a3 a4 a5 a6 a7 a8 a9 a10 a11 a12 a13 a14) =
     match g with
     | F_marginal => cast a7
     | F_cross => cast a8
     | _ => getattr g (mk_Kernel a1 a2 a3 a4 a5 a6 a7 a8
                                 a9 a10 a11 a12 a13 a14)
     end).
Proof.
  intros Hv Hf. split.
  - destruct (replace_getattr self kwargs Hv) as (k & Hk & Hget).
    exists k. split; [done|]. rewrite Hget. unfold overridden. by rewrite Hf.
  - intros. rewrite Kernel_new_fields. by destruct g.
Qed.

Lemma replace_casts_by_value_witness :
  (∃ k, _replace dense_kernel {["is_gaussian" := VEnum NO]} = Ok k ∧
        getattr F_is_gaussian k = VInt 4) ∧
  is_gaussian
    (Kernel_new VNone VNone VNone VNone (VEnum NO) VNone (VEnum NO) (VEnum NO)
                VNone VNone VNone VNone VNone VNone) = VEnum NO.
Proof.
  destruct (replace_casts_by_value dense_kernel {["is_gaussian" := VEnum NO]}
              F_is_gaussian NO) as [Hr Hn].
  - apply map_Forall_singleton. exact (field_name_in F_is_gaussian).
  - reflexivity.
  - split; [exact Hr|].
    exact (Hn VNone VNone VNone VNone (VEnum NO) VNone (VEnum NO) (VEnum NO)
              VNone VNone VNone VNone VNone VNone F_is_gaussian).
Defined.

(** C10. A [marginal] or [cross] value that is not a [Marginalisation]
    member is stored exactly as given by construction and by replacement:
    nothing is converted, no range is checked, nothing raises. *)
Theorem non_member_stored_as_given (v : value) :
  isinstance_Marginalisation v = false →
  (∀ a1 a2 a3 a4 a5 a6 w a9 a10 a11 a12 a13 a14,
     marginal (Kernel_new a1 a2 a3 a4 a5 a6 v w a9 a10 a11 a12 a13 a14) = v ∧
     cross (Kernel_new a1 a2 a3 a4 a5 a6 w v a9 a10 a11 a12 a13 a14) = v) ∧
  (∀ self kwargs, names_fields kwargs →
     (kwargs !! "marginal" = Some v →
      ∃ k, _replace self kwargs = Ok k ∧ marginal k = v) ∧
     (kwargs !! "cross" = Some v →
      ∃ k, _replace self kwargs = Ok k ∧ cross k = v)).
Proof.
  intros Hv. split.
  - intros. rewrite !Kernel_new_fields. simpl. by rewrite cast_not_instance.
  - intros self kwargs Hnames.
    destruct (replace_getattr self kwargs Hnames) as (k & Hk & Hget).
    split; intros Hkw; exists k; (split; [done|]).
    + rewrite <- (cast_not_instance v Hv).
      specialize (Hget F_marginal). unfold overridden in Hget.
      cbn [field_name getattr] in Hget. by rewrite Hkw in Hget.
    + rewrite <- (cast_not_instance v Hv).
      specialize (Hget F_cross). unfold overridden in Hget.
      cbn [field_name getattr] in Hget. by rewrite Hkw in Hget.
Qed.

Lemma non_member_stored_as_given_witness :
  marginal (Kernel_new VNone VNone VNone VNone VNone VNone (VInt 17) (VInt 0)
                       VNone VNone VNone VNone VNone VNone) = VInt 17 ∧
  ∃ k, _replace dense_kernel {["cross" := VInt 17]} = Ok k ∧ cross k = VInt 17.
Proof.
  destruct (non_member_stored_as_given (VInt 17)) as [Hn Hr].
  - reflexivity.
  - split.
    + exact (proj1 (Hn VNone VNone VNone VNone VNone VNone (VInt 0)
                       VNone VNone VNone VNone VNone VNone)).
    + apply (Hr dense_kernel {["cross" := VInt 17]}).
      * apply map_Forall_singleton. exact (field_name_in F_cross).
      * reflexivity.
Defined.

(** C1. A valid ordinal or a [Marginalisation] member given as [marginal]
    or [cross] to construction or to replacement is stored as the plain
    integer the caller meant; and in every store built by any sequence of
    operations no record holds an enumeration member in either field. *)
Theorem stored_ordinal (rz : value → value → result value)
    (v : value) (z : Z) :
  intended_ordinal v = Some z →
  (∀ a1 a2 a3 a4 a5 a6 w a9 a10 a11 a12 a13 a14,
     marginal (Kernel_new a1 a2 a3 a4 a5 a6 v w a9 a10 a11 a12 a13 a14)
       = VInt z ∧
     cross (Kernel_new a1 a2 a3 a4 a5 a6 w v a9 a10 a11 a12 a13 a14)
       = VInt z) ∧
  (∀ self kwargs, names_fields kwargs →
     (kwargs !! "marginal" = Some v →
      ∃ k, _replace self kwargs = Ok k ∧ marginal k = VInt z) ∧
     (kwargs !! "cross" = Some v →
      ∃ k, _replace self kwargs = Ok k ∧ cross k = VInt z)) ∧
  (∀ ops, Forall plain_ordinals (run rz ops [])).
Proof.
  intros Hz. pose proof (cast_intended v z Hz) as Hcast. split; [|split].
  - intros. rewrite !Kernel_new_fields. done.
  - intros self kwargs Hnames.
    destruct (replace_getattr self kwargs Hnames) as (k & Hk & Hget).
    split; intros Hkw; exists k; (split; [done|]); rewrite <- Hcast.
    + specialize (Hget F_marginal). unfold overridden in Hget.
      cbn [field_name getattr] in Hget. by rewrite Hkw in Hget.
    + specialize (Hget F_cross). unfold overridden in Hget.
      cbn [field_name getattr] in Hget. by rewrite Hkw in Hget.
  - intros ops. apply run_plain. constructor.
Qed.

Lemma stored_ordinal_witness :
  cross (Kernel_new VNone VNone VNone VNone VNone VNone (VInt 1) (VEnum NO)
                    VNone VNone VNone VNone VNone VNone) = VInt 4 ∧
  (∃ k, _replace dense_kernel {["marginal" := VEnum NO]} = Ok k ∧
        marginal k = VInt 4) ∧
  Forall plain_ordinals
    (run revert_zipped
       [OpNew VNone VNone VNone VNone VNone VNone (VEnum NO) (VEnum NO)
              VNone VNone VNone VNone VNone VNone;
        OpReplace 0 {["cross" := VEnum OVER_ALL]}] []).
Proof.
  destruct (stored_ordinal revert_zipped (VEnum NO) 4) as (Hn & Hr & Hall).
  - reflexivity.
  - split; [|split].
    + exact (proj2 (Hn VNone VNone VNone VNone VNone VNone (VInt 1)
                       VNone VNone VNone VNone VNone VNone)).
    + apply (Hr dense_kernel {["marginal" := VEnum NO]}).
      * apply map_Forall_singleton. exact (field_name_in F_marginal).
      * reflexivity.
    + apply Hall.
Defined.

(** C8. Records are never modified in place: after any sequence of
    constructions, replacements and reversals every record already in the
    store is the record it was, field by field, and each operation that
    succeeds yields an object that was not in the store before. *)
Theorem records_immutable (rz : value → value → result value)
    (ops : list op) (store : list Kernel) (r : nat) (k : Kernel) :
  store !! r = Some k →
  (∃ k', run rz ops store !! r = Some k' ∧
         ∀ f, getattr f k' = getattr f k) ∧
  (∀ o r' store',
     exec rz o store = Ok (r', store') →
     r' ≠ r ∧ store !! r' = None ∧ store' !! r = Some k ∧
     is_Some (store' !! r')).
Proof.
  intros Hr. split.
  - exists k. split; [by apply run_preserves|done].
  - intros o r' store' Hexec.
    destruct (exec_preserves rz _ _ _ _ _ _ Hexec Hr) as [Hkeep Hne].
    apply exec_inv in Hexec as (k' & -> & -> & _).
    split; [done|]. split; [by apply lookup_ge_None_2|]. split; [done|].
    exists k'. by rewrite lookup_app_r, Nat.sub_diag by lia.
Qed.

Lemma records_immutable_witness :
  ∃ k', run revert_zipped
          [OpReverse 0; OpReplace 0 {["is_input" := VBool true]};
           OpReplace 1 {["nope" := VNone]}; OpReverse 1]
          [sample_kernel] !! 0 = Some k' ∧
        ∀ f, getattr f k' = getattr f sample_kernel.
Proof.
  apply (records_immutable revert_zipped
           [OpReverse 0; OpReplace 0 {["is_input" := VBool true]};
            OpReplace 1 {["nope" := VNone]}; OpReverse 1]
           [sample_kernel] 0 sample_kernel).
  reflexivity.
Defined.

(** C3. [reverse] returns a new record in which [var1], [nngp], [var2] and
    [ntk] are what the helper returns for them with [shape1], [is_reversed]
    is the negation of the receiver's, and the other nine fields are the
    receiver's. *)
Theorem reverse_frame (rz : value → value → result value)
    (self : Kernel) (r1 r2 r3 r4 : value) (b : bool) :
  rz (var1 self) (shape1 self) = Ok r1 →
  rz (nngp self) (shape1 self) = Ok r2 →
  rz (var2 self) (shape1 self) = Ok r3 →
  rz (ntk self) (shape1 self) = Ok r4 →
  isinstance_Marginalisation r1 = false →
  isinstance_Marginalisation r2 = false →
  isinstance_Marginalisation r3 = false →
  isinstance_Marginalisation r4 = false →
  truth (is_reversed self) = Ok b →
  ∃ k, reverse rz self = Ok k ∧
       var1 k = r1 ∧ nngp k = r2 ∧ var2 k = r3 ∧ ntk k = r4 ∧
       is_reversed k = VBool (negb b) ∧
       is_gaussian k = is_gaussian self ∧
       marginal k = marginal self ∧ cross k = cross self ∧
       shape1 k = shape1 self ∧ shape2 k = shape2 self ∧
       x1_is_x2 k = x1_is_x2 self ∧ is_input k = is_input self ∧
       mask1 k = mask1 self ∧ mask2 k = mask2 self.
Proof.
  intros H1 H2 H3 H4 E1 E2 E3 E4 Hb.
  eexists. split; [by apply (reverse_Ok rz self r1 r2 r3 r4 b)|].
  simpl. by rewrite !cast_not_instance.
Qed.

Lemma reverse_frame_witness :
  ∃ k, reverse revert_zipped sample_kernel = Ok k ∧
       var1 k = VArray (transpose_pairs 1 sample_var) ∧
       nngp k = VArray (transpose_pairs 2 sample_cross) ∧
       var2 k = VArray (transpose_pairs 1 sample_var) ∧
       ntk k = VArray (transpose_pairs 2 sample_cross) ∧
       is_reversed k = VBool true ∧
       is_gaussian k = VBool true ∧
       marginal k = VInt 3 ∧ cross k = VInt 4 ∧
       shape1 k = sample_shape ∧ shape2 k = sample_shape ∧
       x1_is_x2 k = VBool true ∧ is_input k = VBool false ∧
       mask1 k = VNone ∧ mask2 k = VNone.
Proof.
  apply (reverse_frame revert_zipped sample_kernel
           (VArray (transpose_pairs 1 sample_var))
           (VArray (transpose_pairs 2 sample_cross))
           (VArray (transpose_pairs 1 sample_var))
           (VArray (transpose_pairs 2 sample_cross)) false);
    reflexivity.
Defined.

(** The spec's example: two axis pairs [(H,H),(W,W)] become [(W,W),(H,H)]
    and the flag goes from [False] to [True]. *)
Example reverse_sample_axes :
  ∃ k a1 a2, reverse revert_zipped sample_kernel = Ok k ∧
    var1 k = VArray a1 ∧ dims a1 = [2; 3; 3; 2; 2] ∧
    nngp k = VArray a2 ∧ dims a2 = [2; 2; 3; 3; 2; 2] ∧
    is_reversed k = VBool true.
Proof.
  eexists. exists (transpose_pairs 1 sample_var), (transpose_pairs 2 sample_cross).
  split.
  - apply (reverse_Ok revert_zipped sample_kernel
             (VArray (transpose_pairs 1 sample_var))
             (VArray (transpose_pairs 2 sample_cross))
             (VArray (transpose_pairs 1 sample_var))
             (VArray (transpose_pairs 2 sample_cross)) false);
      reflexivity.
  - repeat split; reflexivity.
Qed.

Lemma pairable_layout_inv k :
  pairable_layout k = true →
  ∃ s b a1 a2 a3 a4,
    shape1 k = VTuple s ∧ is_reversed k = VBool b ∧
    var1 k = VArray a1 ∧ nngp k = VArray a2 ∧
    var2 k = VArray a3 ∧ ntk k = VArray a4 ∧
    Forall (λ a, well_formed_array a ∧ 2 * spatial_ndim s ≤ length (dims a))
           [a1; a2; a3; a4].
Proof.
  unfold pairable_layout. intros H.
  destruct (shape1 k) as [| | | | | |s| |]; try discriminate.
  destruct (marginal k) as [| |zm| | | | | |]; try discriminate.
  destruct (cross k) as [| |zc| | | | | |]; try discriminate.
  destruct (is_reversed k) as [|b| | | | | | |]; try discriminate.
  apply andb_prop in H as [_ H].
  destruct (var1 k) as [| | | | | | |a1|]; try discriminate.
  destruct (nngp k) as [| | | | | | |a2|]; try discriminate.
  destruct (var2 k) as [| | | | | | |a3|]; try discriminate.
  destruct (ntk k) as [| | | | | | |a4|]; try discriminate.
  exists s, b, a1, a2, a3, a4. repeat (split; [done|]).
  apply Is_true_true, forallb_True in H. eapply Forall_impl; [exact H|].
  intros a Ha. apply paired_spatial_axes_spec. by apply Is_true_true.
Qed.

(** C2. On a record with a well-formed pairable spatial layout, reversing
    twice succeeds and gives back [var1], [nngp], [var2], [ntk] and
    [is_reversed] of the record. *)
Theorem reverse_involution (k : Kernel) :
  pairable_layout k = true →
  ∃ k1 k2,
    reverse revert_zipped k = Ok k1 ∧ reverse revert_zipped k1 = Ok k2 ∧
    var1 k2 = var1 k ∧ nngp k2 = nngp k ∧ var2 k2 = var2 k ∧
    ntk k2 = ntk k ∧ is_reversed k2 = is_reversed k.
Proof.
  intros H.
  apply pairable_layout_inv in H
    as (s & b & a1 & a2 & a3 & a4 & Hs & Hb & E1 & E2 & E3 & E4 & Hall).
  apply Forall_cons in Hall as [[W1 N1] Hall].
  apply Forall_cons in Hall as [[W2 N2] Hall].
  apply Forall_cons in Hall as [[W3 N3] Hall].
  apply Forall_cons in Hall as [[W4 N4] _].
  destruct (revert_zipped_twice a1 s W1 N1) as (a1' & F1 & B1).
  destruct (revert_zipped_twice a2 s W2 N2) as (a2' & F2 & B2).
  destruct (revert_zipped_twice a3 s W3 N3) as (a3' & F3 & B3).
  destruct (revert_zipped_twice a4 s W4 N4) as (a4' & F4 & B4).
  do 2 eexists. split; [|split].
  - apply (reverse_Ok revert_zipped k (VArray a1') (VArray a2') (VArray a3')
             (VArray a4') b).
    + by rewrite E1, Hs.
    + by rewrite E2, Hs.
    + by rewrite E3, Hs.
    + by rewrite E4, Hs.
    + by rewrite Hb.
  - apply (reverse_Ok revert_zipped _ (VArray a1) (VArray a2) (VArray a3)
             (VArray a4) (negb b)); simpl; by rewrite ?Hs.
  - simpl. rewrite E1, E2, E3, E4, Hb, negb_involutive. done.
Qed.

Lemma reverse_involution_witness :
  ∃ k1 k2,
    reverse revert_zipped sample_kernel = Ok k1 ∧
    reverse revert_zipped k1 = Ok k2 ∧
    var1 k2 = var1 sample_kernel ∧ nngp k2 = nngp sample_kernel ∧
    var2 k2 = var2 sample_kernel ∧ ntk k2 = ntk sample_kernel ∧
    is_reversed k2 = is_reversed sample_kernel.
Proof.
  apply (reverse_involution sample_kernel). reflexivity.
Defined.

(** C7. When [shape1] has no spatial dimensions, [reverse] leaves the four
    covariance arrays as they are and still negates [is_reversed]. *)
Theorem reverse_no_spatial (k : Kernel) (s : list value)
    (a1 a2 a3 a4 : ndarray) (b : bool) :
  shape1 k = VTuple s →
  spatial_ndim s = 0 →
  var1 k = VArray a1 → nngp k = VArray a2 →
  var2 k = VArray a3 → ntk k = VArray a4 →
  Forall well_formed_array [a1; a2; a3; a4] →
  truth (is_reversed k) = Ok b →
  ∃ k', reverse revert_zipped k = Ok k' ∧
        var1 k' = var1 k ∧ nngp k' = nngp k ∧ var2 k' = var2 k ∧
        ntk k' = ntk k ∧ is_reversed k' = VBool (negb b).
Proof.
  intros Hs Hn E1 E2 E3 E4 Hall Hb.
  apply Forall_cons in Hall as [W1 Hall].
  apply Forall_cons in Hall as [W2 Hall].
  apply Forall_cons in Hall as [W3 Hall].
  apply Forall_cons in Hall as [W4 _].
  eexists. split.
  - apply (reverse_Ok revert_zipped k (VArray a1) (VArray a2) (VArray a3)
             (VArray a4) b); [| | | |done].
    + rewrite E1, Hs. by apply revert_zipped_no_spatial.
    + rewrite E2, Hs. by apply revert_zipped_no_spatial.
    + rewrite E3, Hs. by apply revert_zipped_no_spatial.
    + rewrite E4, Hs. by apply revert_zipped_no_spatial.
  - simpl. by rewrite E1, E2, E3, E4.
Qed.

Lemma reverse_no_spatial_witness :
  ∃ k', reverse revert_zipped dense_kernel = Ok k' ∧
        var1 k' = var1 dense_kernel ∧ nngp k' = nngp dense_kernel ∧
        var2 k' = var2 dense_kernel ∧ ntk k' = ntk dense_kernel ∧
        is_reversed k' = VBool true.
Proof.
  apply (reverse_no_spatial dense_kernel [VInt 3; VInt 8]
           dense_var dense_cross dense_var dense_cross false);
    try reflexivity.
  repeat constructor.
Defined.

(** * Where the operations raise *)

(** A failure of the helper is the failure of [reverse]. *)
Lemma reverse_helper_raises (rz : value → value → result value) self e :
  rz (var1 self) (shape1 self) = Raise e → reverse rz self = Raise e.
Proof. intros H. unfold reverse, reverse_mat. by rewrite H. Qed.

(** A flag without a truth value makes [not self.is_reversed] raise. *)
Example reverse_flag_without_truth :
  reverse revert_zipped
    (Kernel_new (VArray dense_var) (VArray dense_cross)
                (VArray dense_var) (VArray dense_cross)
                (VBool true) (VArray dense_var) (VInt 0) (VInt 0)
                (VTuple [VInt 3; VInt 8]) (VTuple [VInt 3; VInt 8])
                (VBool true) (VBool true) VNone VNone)
  = Raise ValueError.
Proof. reflexivity. Qed.

(** A keyword that names no field is refused by the named tuple. *)
Example replace_unknown_keyword :
  _replace dense_kernel {["margin" := VInt 1]} = Raise ValueError.
Proof.
  apply (replace_unexpected _ _ "margin" (VInt 1)); [reflexivity|].
  unfold _fields, fields. cbn [fmap list_fmap field_name].
  rewrite !not_elem_of_cons. repeat split; discriminate || apply not_elem_of_nil.
Qed.

(** * Further properties of the code *)

(** ** The enumeration as an order *)

(** X1. The comparisons of [Marginalisation] form a strict total order on
    the members with [OVER_ALL] least and [NO] greatest; [==] holds exactly
    for the same member, and [<=], [>], [>=], [!=] are derived from [<] and
    [==] in the usual way. *)
Theorem Marginalisation_total_order (a b c : Marginalisation) :
  Marginalisation_lt a a = false ∧
  (Marginalisation_lt a b = true → Marginalisation_lt b c = true →
   Marginalisation_lt a c = true) ∧
  (Marginalisation_lt a b = true ∨ a = b ∨ Marginalisation_lt b a = true) ∧
  (Marginalisation_eq a b = true ↔ a = b) ∧
  Marginalisation_ne a b = negb (Marginalisation_eq a b) ∧
  Marginalisation_le a b = Marginalisation_lt a b || Marginalisation_eq a b ∧
  Marginalisation_gt a b = Marginalisation_lt b a ∧
  Marginalisation_ge a b = Marginalisation_le b a ∧
  Marginalisation_le OVER_ALL a = true ∧ Marginalisation_le a NO = true.
Proof.
  unfold Marginalisation_lt, Marginalisation_eq, Marginalisation_ne,
    Marginalisation_le, Marginalisation_gt, Marginalisation_ge.
  split; [apply Z.ltb_irrefl|]. split.
  { rewrite !Z.ltb_lt. lia. }
  split.
  { destruct (Z.lt_trichotomy (int a) (int b)) as [H|[H|H]].
    - left. by apply Z.ltb_lt.
    - right. left. by apply int_inj.
    - right. right. by apply Z.ltb_lt. }
  split.
  { rewrite Z.eqb_eq. split; [apply int_inj|by intros ->]. }
  split; [done|]. split.
  { destruct (Z.ltb_spec (int a) (int b)), (Z.eqb_spec (int a) (int b)),
      (Z.leb_spec (int a) (int b)); simpl; try done; lia. }
  split; [apply Z.gtb_ltb|]. split; [apply Z.geb_leb|].
  split; [by destruct a|by destruct a].
Qed.

Lemma Marginalisation_total_order_witness :
  Marginalisation_lt OVER_PIXELS_AND_POINTS OVER_POINTS = true.
Proof.
  apply (Marginalisation_total_order OVER_PIXELS_AND_POINTS OVER_PIXELS
           OVER_POINTS); reflexivity.
Defined.

(** ** Members and numbers are interchangeable *)

Lemma cast_idempotent v : cast (cast v) = cast v.
Proof. by destruct v. Qed.

(** X2. A classification given as a member and the same classification
    given as its number yield the same record: in [__new__] for [marginal]
    and [cross], in [_replace] under any key. *)
Theorem member_or_number (m m' : Marginalisation) :
  (∀ a1 a2 a3 a4 a5 a6 a9 a10 a11 a12 a13 a14,
     Kernel_new a1 a2 a3 a4 a5 a6 (VEnum m) (VEnum m')
                a9 a10 a11 a12 a13 a14 =
     Kernel_new a1 a2 a3 a4 a5 a6 (VInt (int m)) (VInt (int m'))
                a9 a10 a11 a12 a13 a14) ∧
  (∀ self kwargs key,
     _replace self (<[key := VEnum m]> kwargs) =
     _replace self (<[key := VInt (int m)]> kwargs)).
Proof.
  split; [done|]. intros self kwargs key.
  unfold _replace, cast_kwargs. by rewrite !fmap_insert.
Qed.

(** ** Replacement: failure, empty input, composition *)

Lemma replace_Ok_names self kwargs k :
  _replace self kwargs = Ok k → names_fields kwargs.
Proof.
  intros H s v Hs. destruct (decide (s ∈ _fields)) as [|Hn]; [done|].
  rewrite (replace_unexpected self kwargs s v Hs Hn) in H. discriminate.
Qed.


Lemma overridden_fields self kwargs :
  ∀ f,
    getattr f
      (mk_Kernel
         (overridden self kwargs F_var1) (overridden self kwargs F_nngp)
         (overridden self kwargs F_var2) (overridden self kwargs F_ntk)
         (overridden self kwargs F_is_gaussian)
         (overridden self kwargs F_is_reversed)
         (overridden self kwargs F_marginal) (overridden self kwargs F_cross)
         (overridden self kwargs F_shape1) (overridden self kwargs F_shape2)
         (overridden self kwargs F_x1_is_x2)
         (overridden self kwargs F_is_input)
         (overridden self kwargs F_mask1) (overridden self kwargs F_mask2))
    = overridden self kwargs f.
Proof. by intros []. Qed.

Lemma Kernel_ext k k' : (∀ f, getattr f k = getattr f k') → k = k'.
Proof.
  intros H. destruct k, k'.
  pose proof (H F_var1). pose proof (H F_nngp). pose proof (H F_var2).
  pose proof (H F_ntk). pose proof (H F_is_gaussian).
  pose proof (H F_is_reversed). pose proof (H F_marginal).
  pose proof (H F_cross). pose proof (H F_shape1). pose proof (H F_shape2).
  pose proof (H F_x1_is_x2). pose proof (H F_is_input).
  pose proof (H F_mask1). pose proof (H F_mask2).
  simpl in *. by subst.
Qed.





(** X4. With no keywords [_replace] returns a record equal to the receiver
    in every field. *)
Theorem replace_nothing (self : Kernel) : _replace self ∅ = Ok self.
Proof.
  rewrite replace_Ok by apply map_Forall_empty. f_equal.
  apply Kernel_ext. intros f. rewrite overridden_fields.
  unfold overridden. by rewrite lookup_empty.
Qed.


(** X6. Repeating a replacement changes nothing more: applied to its own
    result, with the same keywords, [_replace] returns that result. *)
Theorem replace_idempotent (self k : Kernel) (kwargs : gmap string value) :
  _replace self kwargs = Ok k → _replace k kwargs = Ok k.
Proof.
  intros H. pose proof (replace_Ok_names _ _ _ H) as Hn.
  rewrite (replace_Ok _ _ Hn) in H. injection H as <-.
  rewrite (replace_Ok _ _ Hn). f_equal. apply Kernel_ext. intros f.
  rewrite !overridden_fields.
  set (k1 := mk_Kernel _ _ _ _ _ _ _ _ _ _ _ _ _ _).
  assert (getattr f k1 = overridden self kwargs f) as Hk1
    by apply overridden_fields.
  unfold overridden in *. rewrite Hk1.
  by destruct (kwargs !! field_name f).
Qed.

Lemma replace_idempotent_witness :
  ∃ k, _replace sample_kernel {["marginal" := VEnum NO]} = Ok k ∧
       _replace k {["marginal" := VEnum NO]} = Ok k.
Proof.
  eexists. split; [reflexivity|].
  apply (replace_idempotent sample_kernel). reflexivity.
Defined.

(** X7. When the keywords cover all fourteen fields the receiver does not
    matter: any two receivers give the same outcome. *)
Theorem replace_all_fields (self self' : Kernel)
    (kwargs : gmap string value) :
  (∀ f, is_Some (kwargs !! field_name f)) →
  _replace self kwargs = _replace self' kwargs.
Proof.
  intros Hall. unfold _replace, namedtuple_replace, pop.
  assert (∀ f k, default (getattr f k) (cast_kwargs kwargs !! field_name f)
                 = default VNone (cast_kwargs kwargs !! field_name f)) as E.
  { intros f k. rewrite cast_kwargs_lookup.
    destruct (Hall f) as [v ->]. done. }
  by rewrite !(E _ self), !(E _ self').
Qed.

(** X8. Building a record anew from the fields of a record gives the same
    record exactly when its [marginal] and [cross] hold no enumeration
    member; a record made by [__new__] is always such a record. *)
Theorem rebuild_iff_plain (k : Kernel) :
  (Kernel_new (var1 k) (nngp k) (var2 k) (ntk k) (is_gaussian k)
              (is_reversed k) (marginal k) (cross k) (shape1 k) (shape2 k)
              (x1_is_x2 k) (is_input k) (mask1 k) (mask2 k) = k
   ↔ plain_ordinals k) ∧
  (∀ a1 a2 a3 a4 a5 a6 a7 a8 a9 a10 a11 a12 a13 a14,
     plain_ordinals
       (Kernel_new a1 a2 a3 a4 a5 a6 a7 a8 a9 a10 a11 a12 a13 a14)).
Proof.
  split.
  - destruct k as [v1 v2 v3 v4 g r m c s1 s2 x i m1 m2].
    unfold plain_ordinals, Kernel_new. simpl. split.
    + intros [= Hm Hc]. rewrite <- Hm, <- Hc at 1. split; apply cast_plain.
    + intros [Hm Hc]. by rewrite !cast_not_instance.
  - intros. split; apply cast_plain.
Qed.

Lemma rebuild_iff_plain_witness :
  Kernel_new (var1 sample_kernel) (nngp sample_kernel) (var2 sample_kernel)
             (ntk sample_kernel) (is_gaussian sample_kernel)
             (is_reversed sample_kernel) (marginal sample_kernel)
             (cross sample_kernel) (shape1 sample_kernel)
             (shape2 sample_kernel) (x1_is_x2 sample_kernel)
             (is_input sample_kernel) (mask1 sample_kernel)
             (mask2 sample_kernel) = sample_kernel.
Proof.
  apply (proj1 (rebuild_iff_plain sample_kernel)). split; reflexivity.
Defined.

Lemma replace_all_fields_witness :
  _replace sample_kernel
    (list_to_map ((λ f, (field_name f, VInt 1)) <$> fields)) =
  _replace dense_kernel
    (list_to_map ((λ f, (field_name f, VInt 1)) <$> fields)).
Proof.
  apply (replace_all_fields sample_kernel dense_kernel).
  intros []; exists (VInt 1); reflexivity.
Defined.

(** ** Reversal: failure, independence of the other fields, round trip *)

(** X9. [reverse] returns exactly when the helper returns for [var1],
    [nngp], [var2] and [ntk] and [is_reversed] has a truth value; the record
    it returns then holds the four results (cast), the negated flag as a
    boolean and the other nine fields of the receiver.  When it raises, the
    exception is the helper's on one of the four arrays or that of
    [not self.is_reversed]: the final [_replace] never fails. *)
Theorem reverse_succeeds_iff (rz : value → value → result value)
    (self : Kernel) :
  (∀ k, reverse rz self = Ok k ↔
        ∃ r1 r2 r3 r4 b,
          rz (var1 self) (shape1 self) = Ok r1 ∧
          rz (nngp self) (shape1 self) = Ok r2 ∧
          rz (var2 self) (shape1 self) = Ok r3 ∧
          rz (ntk self) (shape1 self) = Ok r4 ∧
          truth (is_reversed self) = Ok b ∧
          k = mk_Kernel (cast r1) (cast r2) (cast r3) (cast r4)
                (is_gaussian self) (VBool (negb b)) (marginal self)
                (cross self) (shape1 self) (shape2 self) (x1_is_x2 self)
                (is_input self) (mask1 self) (mask2 self)) ∧
  (∀ e, reverse rz self = Raise e →
        rz (var1 self) (shape1 self) = Raise e ∨
        rz (nngp self) (shape1 self) = Raise e ∨
        rz (var2 self) (shape1 self) = Raise e ∨
        rz (ntk self) (shape1 self) = Raise e ∨
        truth (is_reversed self) = Raise e).
Proof.
  split.
  - intros k. split.
    + intros H.
      destruct (reverse_inv rz _ _ H)
        as (r1 & r2 & r3 & r4 & b & H1 & H2 & H3 & H4 & Hb).
      exists r1, r2, r3, r4, b. repeat (split; [done|]).
      rewrite (reverse_Ok rz _ _ _ _ _ _ H1 H2 H3 H4 Hb) in H. congruence.
    + intros (r1 & r2 & r3 & r4 & b & H1 & H2 & H3 & H4 & Hb & ->).
      by apply reverse_Ok.
  - intros e H.
    destruct (rz (var1 self) (shape1 self)) as [r1|e1] eqn:H1;
      [|left; unfold reverse, reverse_mat in H; rewrite H1 in H;
        simpl in H; congruence].
    destruct (rz (nngp self) (shape1 self)) as [r2|e2] eqn:H2;
      [|right; left; unfold reverse, reverse_mat in H; rewrite H1, H2 in H;
        simpl in H; congruence].
    destruct (rz (var2 self) (shape1 self)) as [r3|e3] eqn:H3;
      [|do 2 right; left; unfold reverse, reverse_mat in H;
        rewrite H1, H2, H3 in H; simpl in H; congruence].
    destruct (rz (ntk self) (shape1 self)) as [r4|e4] eqn:H4;
      [|do 3 right; left; unfold reverse, reverse_mat in H;
        rewrite H1, H2, H3, H4 in H; simpl in H; congruence].
    destruct (truth (is_reversed self)) as [b|eb] eqn:Hb.
    + rewrite (reverse_Ok rz _ _ _ _ _ _ H1 H2 H3 H4 Hb) in H. discriminate.
    + do 4 right. unfold reverse, reverse_mat, py_not in H.
      rewrite H1, H2, H3, H4, Hb in H. simpl in H. congruence.
Qed.

Lemma reverse_succeeds_iff_witness :
  reverse (λ mat _, Ok mat) dense_kernel =
  Ok (mk_Kernel (VArray dense_var) (VArray dense_cross)
                (VArray dense_var) (VArray dense_cross)
                (VBool true) (VBool true) (VInt 0) (VInt 0)
                (VTuple [VInt 3; VInt 8]) (VTuple [VInt 3; VInt 8])
                (VBool true) (VBool true) VNone VNone).
Proof.
  apply (proj1 (reverse_succeeds_iff (λ mat _, Ok mat) dense_kernel)).
  exists (VArray dense_var), (VArray dense_cross), (VArray dense_var),
    (VArray dense_cross), false.
  repeat split; reflexivity.
Defined.

Lemma reverse_touches_None (kwargs : gmap string value) :
  Forall (λ s, kwargs !! s = None) reverse_touches →
  kwargs !! "var1" = None ∧ kwargs !! "nngp" = None ∧
  kwargs !! "var2" = None ∧ kwargs !! "ntk" = None ∧
  kwargs !! "is_reversed" = None ∧ kwargs !! "shape1" = None.
Proof.
  unfold reverse_touches. intros H.
  repeat (apply Forall_cons in H as [? H]). done.
Qed.

(** X10. [reverse] looks at no field but the four arrays, [shape1] and
    [is_reversed] (in particular not at [marginal], [cross] or [shape2]):
    replacing other fields before the reversal or after it gives the same
    outcome, failures included. *)
Theorem reverse_commutes_replace (rz : value → value → result value)
    (self : Kernel) (kwargs : gmap string value) :
  names_fields kwargs →
  Forall (λ s, kwargs !! s = None) reverse_touches →
  (k ←! _replace self kwargs; reverse rz k) =
  (k ←! reverse rz self; _replace k kwargs).
Proof.
  intros Hn Hnone.
  destruct (reverse_touches_None _ Hnone) as (N1 & N2 & N3 & N4 & N5 & N6).
  rewrite (replace_Ok _ _ Hn). cbn [bind].
  unfold reverse at 1 2, reverse_mat, py_not. cbn [var1 nngp var2 ntk shape1 is_reversed].
  unfold overridden at 1 2 3 4 5 6 7 8 9. cbn [field_name getattr].
  rewrite N1, N2, N3, N4, N5, N6.
  destruct (rz (var1 self) (shape1 self)) as [r1|]; [|done].
  destruct (rz (nngp self) (shape1 self)) as [r2|]; [|done].
  destruct (rz (var2 self) (shape1 self)) as [r3|]; [|done].
  destruct (rz (ntk self) (shape1 self)) as [r4|]; [|done].
  destruct (truth (is_reversed self)) as [b|]; [|done].
  cbn [bind].
  rewrite !(replace_Ok _ (reverse_kwargs _ _ _ _ _))
    by apply reverse_kwargs_names.
  cbn [bind]. rewrite (replace_Ok _ kwargs Hn).
  f_equal. apply Kernel_ext. intros f. rewrite !overridden_fields.
  set (k1 := mk_Kernel _ _ _ _ _ _ _ _ _ _ _ _ _ _).
  set (k2 := mk_Kernel _ _ _ _ _ _ _ _ _ _ _ _ _ _).
  assert (∀ g, getattr g k1 = overridden self kwargs g) as Hk1
    by apply overridden_fields.
  unfold overridden in *. unfold reverse_kwargs.
  destruct f; cbn [field_name];
    rewrite ?Hk1; cbn [field_name];
    rewrite ?N1, ?N2, ?N3, ?N4, ?N5, ?N6;
    repeat (rewrite lookup_insert_ne by discriminate);
    rewrite ?lookup_insert_eq, ?lookup_empty; reflexivity.
Qed.

Lemma reverse_commutes_replace_witness :
  (k ←! _replace dense_kernel {["cross" := VEnum NO]};
   reverse (λ mat _, Ok mat) k) =
  (k ←! reverse (λ mat _, Ok mat) dense_kernel;
   _replace k {["cross" := VEnum NO]}).
Proof.
  apply (reverse_commutes_replace (λ mat _, Ok mat) dense_kernel
           {["cross" := VEnum NO]}).
  - apply map_Forall_singleton. exact (field_name_in F_cross).
  - repeat constructor.
Defined.

(** X11. For any helper that takes each of the four arrays to a value and
    that value back to the array, reversing twice returns the receiver with
    [is_reversed] replaced by its truth value; when the flag is a boolean
    that is the receiver itself, in all fourteen fields. *)
Theorem reverse_twice_any_helper (rz : value → value → result value)
    (self : Kernel) (b : bool) :
  Forall (undone_by rz (shape1 self))
         [var1 self; nngp self; var2 self; ntk self] →
  truth (is_reversed self) = Ok b →
  ∃ k1, reverse rz self = Ok k1 ∧
        reverse rz k1 =
          Ok (mk_Kernel (var1 self) (nngp self) (var2 self) (ntk self)
                (is_gaussian self) (VBool b) (marginal self) (cross self)
                (shape1 self) (shape2 self) (x1_is_x2 self) (is_input self)
                (mask1 self) (mask2 self)) ∧
        (is_reversed self = VBool b → reverse rz k1 = Ok self).
Proof.
  intros Hall Hb.
  apply Forall_cons in Hall as [(M1 & r1 & F1 & E1 & B1) Hall].
  apply Forall_cons in Hall as [(M2 & r2 & F2 & E2 & B2) Hall].
  apply Forall_cons in Hall as [(M3 & r3 & F3 & E3 & B3) Hall].
  apply Forall_cons in Hall as [(M4 & r4 & F4 & E4 & B4) _].
  eexists. split; [by apply (reverse_Ok rz self r1 r2 r3 r4 b)|].
  rewrite !cast_not_instance by done.
  assert (reverse rz
            (mk_Kernel r1 r2 r3 r4 (is_gaussian self) (VBool (negb b))
               (marginal self) (cross self) (shape1 self) (shape2 self)
               (x1_is_x2 self) (is_input self) (mask1 self) (mask2 self)) =
          Ok (mk_Kernel (var1 self) (nngp self) (var2 self) (ntk self)
                (is_gaussian self) (VBool b) (marginal self) (cross self)
                (shape1 self) (shape2 self) (x1_is_x2 self) (is_input self)
                (mask1 self) (mask2 self))) as Hback.
  { rewrite (reverse_Ok rz _ (var1 self) (nngp self) (var2 self) (ntk self)
               (negb b)) by done.
    simpl. by rewrite !cast_not_instance, negb_involutive by done. }
  split; [exact Hback|].
  intros Hflag. rewrite Hback. f_equal. rewrite <- Hflag. by destruct self.
Qed.

Lemma reverse_twice_any_helper_witness :
  ∃ k1, reverse revert_zipped sample_kernel = Ok k1 ∧
        reverse revert_zipped k1 = Ok sample_kernel.
Proof.
  destruct (reverse_twice_any_helper revert_zipped sample_kernel false)
    as (k1 & H1 & _ & H2).
  - repeat apply Forall_cons_2; [| | | |apply Forall_nil_2].
    + split; [reflexivity|]. exists (VArray (transpose_pairs 1 sample_var)).
      repeat split; vm_compute; reflexivity.
    + split; [reflexivity|]. exists (VArray (transpose_pairs 2 sample_cross)).
      repeat split; vm_compute; reflexivity.
    + split; [reflexivity|]. exists (VArray (transpose_pairs 1 sample_var)).
      repeat split; vm_compute; reflexivity.
    + split; [reflexivity|]. exists (VArray (transpose_pairs 2 sample_cross)).
      repeat split; vm_compute; reflexivity.
  - reflexivity.
  - exists k1. split; [exact H1|]. apply H2. reflexivity.
Defined.

(** ** Replacement never stores a member *)

(** X12. A field of the result of [_replace] that holds an enumeration
    member was not overridden and holds the receiver's value: [_replace]
    itself never puts a member into a record, so a receiver without members
    gives a result without members. *)
Theorem replace_stores_no_member (self k : Kernel)
    (kwargs : gmap string value) :
  _replace self kwargs = Ok k →
  (∀ f, isinstance_Marginalisation (getattr f k) = true →
        kwargs !! field_name f = None ∧ getattr f k = getattr f self) ∧
  ((∀ f, isinstance_Marginalisation (getattr f self) = false) →
   ∀ f, isinstance_Marginalisation (getattr f k) = false).
Proof.
  intros H. pose proof (replace_Ok_names _ _ _ H) as Hn.
  rewrite (replace_Ok _ _ Hn) in H. injection H as <-.
  assert (∀ f, isinstance_Marginalisation (overridden self kwargs f) = true →
               kwargs !! field_name f = None ∧
               overridden self kwargs f = getattr f self) as Hkey.
  { intros f. unfold overridden.
    destruct (kwargs !! field_name f) as [v|]; [|done].
    rewrite cast_plain. discriminate. }
  split.
  - intros f. rewrite overridden_fields. apply Hkey.
  - intros Hfree f. rewrite overridden_fields.
    destruct (isinstance_Marginalisation (overridden self kwargs f)) eqn:E;
      [|done].
    destruct (Hkey f E) as [_ Heq]. rewrite Heq, Hfree in E. discriminate.
Qed.

Lemma replace_stores_no_member_witness :
  isinstance_Marginalisation
    (getattr F_is_gaussian
       (mk_Kernel (VArray dense_var) (VArray dense_cross)
          (VArray dense_var) (VArray dense_cross) (VInt 4) (VBool false)
          (VInt 0) (VInt 0) (VTuple [VInt 3; VInt 8])
          (VTuple [VInt 3; VInt 8]) (VBool true) (VBool true)
          VNone VNone)) = false.
Proof.
  destruct (replace_stores_no_member dense_kernel
              (mk_Kernel (VArray dense_var) (VArray dense_cross)
                 (VArray dense_var) (VArray dense_cross) (VInt 4)
                 (VBool false) (VInt 0) (VInt 0) (VTuple [VInt 3; VInt 8])
                 (VTuple [VInt 3; VInt 8]) (VBool true) (VBool true)
                 VNone VNone)
              {["is_gaussian" := VEnum NO]}) as [_ Hfree].
  - reflexivity.
  - apply Hfree. intros []; reflexivity.
Defined.
